(** * script.js: hero chart, smooth-scroll navigation, reveal on scroll

    A shallow embedding of the page script [src/script.js] and the
    properties of its three parts.  The script is top-level JavaScript
    that talks to the browser: the document, the charting library, click
    events and an [IntersectionObserver].  The embedding keeps the
    script's own statements as functions on an explicit page state and
    names the few facts about the host it relies on.

    Conventions.
    - A node reference is the index of the element in the document,
      which lists the elements in document order.  Two references to the
      same node are the same index, so a mutation through one is seen
      through the other, as with JavaScript object references.
    - JavaScript numbers that only serve as data are integers ([Z]);
      intersection ratios and the threshold are exact rationals ([Q]).
    - A statement that may throw is a computation in the monad [Js.M]:
      it ends with a value or an error, and the state reached before
      the throw is kept, as in JavaScript. *)

From Stdlib Require Import QArith Ascii.
From stdpp Require Import gmap strings list.

Local Open Scope string_scope.
Local Open Scope list_scope.

(** ** The document *)

Module Dom.

(** An element: its local name, its content attributes ([id], [href],
    ...), the tokens of its [class] attribute, its inline style as a
    map from property to value, and its parent. *)
Record Element := mkElement {
  localName  : string;
  attributes : gmap string string;
  classList  : list string;
  style      : gmap string string;
  parentNode : option nat
}.

Abbreviation Document := (list Element).

(** [el.getAttribute(name)] *)
Definition getAttribute (name : string) (el : Element) : option string :=
  attributes el !! name.

(** [el.classList.add(token)]: a token already present is not added
    again. *)
Definition classList_add (token : string) (el : Element) : Element :=
  {| localName := localName el;
     attributes := attributes el;
     classList :=
       if decide (token ∈ classList el) then classList el
       else classList el ++ [token];
     style := style el;
     parentNode := parentNode el |}.

(** [el.style.prop = value] *)
Definition style_set (prop value : string) (el : Element) : Element :=
  {| localName := localName el;
     attributes := attributes el;
     classList := classList el;
     style := <[prop := value]> (style el);
     parentNode := parentNode el |}.

(** The same two mutations through a node reference.  A reference that
    is not in the document changes nothing. *)
Definition node_classList_add (n : nat) (token : string) (d : Document)
  : Document :=
  alter (classList_add token) n d.

Definition node_style_set (n : nat) (prop value : string) (d : Document)
  : Document :=
  alter (style_set prop value) n d.

(** [document.getElementById(id)]: the first element, in document order,
    whose [id] attribute is [id]. *)
Definition hasId (id : string) (el : Element) : bool :=
  bool_decide (getAttribute "id" el = Some id).

Fixpoint find_index {A} (p : A → bool) (l : list A) (i : nat) : option nat :=
  match l with
  | [] => None
  | x :: l' => if p x then Some i else find_index p l' (S i)
  end.

Definition getElementById (id : string) (d : Document) : option nat :=
  find_index (hasId id) d 0.

(** *** Selectors

    The selectors the script uses, as syntax trees: simple selectors,
    compound selectors (all of several simple ones), the descendant
    combinator, and comma-separated lists. *)
Inductive Simple :=
| TypeSel (name : string)               (* [name] *)
| ClassSel (token : string)             (* [.token] *)
| IdSel (id : string)                   (* [#id] *)
| AttrPrefixSel (attr prefix : string). (* [[attr^=prefix]] *)

Inductive Complex :=
| Compound (simples : list Simple)
| Descendant (ancestor : Complex) (simples : list Simple).

Abbreviation SelectorList := (list Complex).

Definition matchesSimple (s : Simple) (el : Element) : bool :=
  match s with
  | TypeSel name => bool_decide (localName el = name)
  | ClassSel token => bool_decide (token ∈ classList el)
  | IdSel id => hasId id el
  | AttrPrefixSel attr pre =>
      match getAttribute attr el with
      | Some v => String.prefix pre v
      | None => false
      end
  end.

Definition matchesCompound (c : list Simple) (d : Document) (n : nat)
  : bool :=
  match d !! n with
  | Some el => forallb (λ s, matchesSimple s el) c
  | None => false
  end.

(** The chain of parents of a node, nearest first.  In a tree the chain
    is shorter than the document, so the fuel is never the limit. *)
Fixpoint ancestorsFrom (fuel : nat) (d : Document) (n : nat) : list nat :=
  match fuel with
  | O => []
  | S fuel' =>
      match d !! n ≫= parentNode with
      | Some p => p :: ancestorsFrom fuel' d p
      | None => []
      end
  end.

Definition ancestors (d : Document) (n : nat) : list nat :=
  ancestorsFrom (length d) d n.

Fixpoint matchesComplex (d : Document) (sel : Complex) (n : nat) : bool :=
  match sel with
  | Compound c => matchesCompound c d n
  | Descendant anc c =>
      matchesCompound c d n && existsb (matchesComplex d anc) (ancestors d n)
  end.

Definition matchesList (d : Document) (sels : SelectorList) (n : nat)
  : bool :=
  existsb (λ sel, matchesComplex d sel n) sels.

(** [document.querySelectorAll]: the matching elements in document
    order, each once. *)
Definition querySelectorAll (sels : SelectorList) (d : Document)
  : list nat :=
  List.filter (matchesList d sels) (seq 0 (length d)).

(** [document.querySelector]: the first of them, or [null]. *)
Definition querySelector (sels : SelectorList) (d : Document)
  : option nat :=
  head (querySelectorAll sels d).

End Dom.

Import Dom.

(** ** Reveal on scroll (lines 53-75) *)

Module Reveal.

(** [const observerOptions = { threshold: 0.1 }], the literal read as
    the rational one tenth. *)
Record ObserverOptions := { threshold : Q }.

Definition observerOptions : ObserverOptions := {| threshold := 1 # 10 |}.

(** What the callback reads of an [IntersectionObserverEntry]. *)
Record Entry := mkEntry {
  target            : nat;
  isIntersecting    : bool;
  intersectionRatio : Q
}.

(** The body of [entries.forEach(entry => { ... })], lines 60-64. *)
Definition onEntry (entry : Entry) (d : Document) : Document :=
  if isIntersecting entry then
    let d1 := node_classList_add (target entry) "visible" d in
    let d2 := node_style_set (target entry) "opacity" "1" d1 in
    node_style_set (target entry) "transform" "translateY(0)" d2
  else d.

(** What lines 61-63 do to the element itself. *)
Definition reveal (el : Element) : Element :=
  style_set "transform" "translateY(0)"
    (style_set "opacity" "1" (classList_add "visible" el)).

(** The observer's callback, lines 58-66. *)
Definition observer_callback (entries : list Entry) (d : Document)
  : Document :=
  foldl (λ d entry, onEntry entry d) d entries.

(** Whether a batch holds an intersecting entry for node [n]. *)
Definition revealedBy (entries : list Entry) (n : nat) : bool :=
  existsb (λ e, isIntersecting e && bool_decide (target e = n)) entries.

(** Successive invocations of the callback, one batch of entries each. *)
Definition deliver (batches : list (list Entry)) (d : Document) : Document :=
  foldl (λ d entries, observer_callback entries d) d batches.

(** The body of [animatedElements.forEach(el => { ... })], lines 71-73;
    [observer.observe(el)] is in [Script.revealInit]. *)
Definition hide (el : nat) (d : Document) : Document :=
  let d1 := node_style_set el "opacity" "0" d in
  let d2 := node_style_set el "transform" "translateY(20px)" d1 in
  node_style_set el "transition"
    "opacity 0.6s ease-out, transform 0.6s ease-out" d2.

(** What lines 71-73 do to the element itself. *)
Definition hidden (el : Element) : Element :=
  style_set "transition" "opacity 0.6s ease-out, transform 0.6s ease-out"
    (style_set "transform" "translateY(20px)" (style_set "opacity" "0" el)).

(** The two states of an observed element. *)
Definition Hidden (el : Element) : Prop :=
  style el !! "opacity" = Some "0" ∧
  style el !! "transform" = Some "translateY(20px)" ∧
  style el !! "transition"
    = Some "opacity 0.6s ease-out, transform 0.6s ease-out".

Definition Visible (el : Element) : Prop :=
  style el !! "opacity" = Some "1" ∧
  style el !! "transform" = Some "translateY(0)".

(** The host sets [isIntersecting] from the observer's thresholds: the
    flag is on when the ratio has reached the first threshold.  This is
    the browser's part of the contract and not code of the script; it
    is stated here as a property of an entry and appears as a
    hypothesis wherever a statement speaks of ratios, since the
    callback itself reads the flag only. *)
Definition thresholdReached (o : ObserverOptions) (ratio : Q) : bool :=
  Qle_bool (threshold o) ratio.

Definition ReportedFor (o : ObserverOptions) (entry : Entry) : Prop :=
  isIntersecting entry = thresholdReached o (intersectionRatio entry).

End Reveal.

(** ** Statements that may throw *)

Module Js.

Inductive Error := TypeError | SyntaxError.

(** A computation on a state [S]: it ends with a value or with a thrown
    error, and in both cases with the state it has reached. *)
Definition M (S A : Type) : Type := S → (Error + A) * S.

#[export] Instance M_ret {S} : MRet (M S) := λ A a s, (inr a, s).

#[export] Instance M_bind {S} : MBind (M S) := λ A B f m s,
  match m s with
  | (inr a, s') => f a s'
  | (inl e, s') => (inl e, s')
  end.

Definition throw {S A} (e : Error) : M S A := λ s, (inl e, s).
Definition get {S} : M S S := λ s, (inr s, s).
Definition modify {S} (f : S → S) : M S unit := λ s, (inr tt, f s).

(** [list.forEach(f)] *)
Fixpoint forEach {S A} (l : list A) (f : A → M S unit) : M S unit :=
  match l with
  | [] => mret tt
  | x :: l' => f x ;; forEach l' f
  end.

End Js.

Import Js.

(** ** The hero chart (lines 1-41) *)

Module HeroChart.

(** A [CanvasGradient]: the line it runs along and its colour stops. *)
Record Gradient := {
  x0 : Z; y0 : Z; x1 : Z; y1 : Z;
  colorStops : list (Z * string)
}.

Definition createLinearGradient (x0 y0 x1 y1 : Z) : Gradient :=
  {| x0 := x0; y0 := y0; x1 := x1; y1 := y1; colorStops := [] |}.

Definition addColorStop (offset : Z) (color : string) (g : Gradient)
  : Gradient :=
  {| x0 := x0 g; y0 := y0 g; x1 := x1 g; y1 := y1 g;
     colorStops := colorStops g ++ [(offset, color)] |}.

Record Dataset := {
  label           : string;
  data            : list Z;
  borderColor     : string;
  backgroundColor : Gradient;
  borderWidth     : Z;
  fill            : bool;
  tension         : Q;
  pointRadius     : Z
}.

Record ChartData := {
  labels   : list string;
  datasets : list Dataset
}.

Record Options := {
  responsive         : bool;
  legend_display     : bool;
  tooltip_enabled    : bool;
  x_display          : bool;
  y_display          : bool;
  animation_duration : Z;
  animation_easing   : string
}.

Record ChartConfig := {
  type    : string;
  config_data : ChartData;
  options : Options
}.

(** Lines 5-7. *)
Definition gradient : Gradient :=
  addColorStop 1 "rgba(0, 255, 170, 0)"
    (addColorStop 0 "rgba(0, 255, 170, 0.5)"
       (createLinearGradient 0 0 0 400)).

(** The object literal of lines 9-41. *)
Definition heroChartConfig : ChartConfig :=
  {| type := "line";
     config_data :=
       {| labels := ["Jan"; "Feb"; "Mar"; "Apr"; "May"; "Jun"; "Jul"];
          datasets :=
            [ {| label := "Market Volatility Index";
                 data := [65; 59; 80; 81; 56; 95; 75]%Z;
                 borderColor := "#00ffaa";
                 backgroundColor := gradient;
                 borderWidth := 3;
                 fill := true;
                 tension := 4 # 10;
                 pointRadius := 0 |} ] |};
     options :=
       {| responsive := true;
          legend_display := false;
          tooltip_enabled := false;
          x_display := false;
          y_display := false;
          animation_duration := 2000;
          animation_easing := "easeInOutQuart" |} |}.

End HeroChart.

Import HeroChart.

(** ** The page and the script *)

Module Script.

Record ScrollIntoViewOptions := { behavior : string }.

(** The part of the browser's state the script reads and writes: the
    document, the charts constructed ([new Chart(ctx, config)], with the
    canvas whose context was passed), the targets of the script's
    observer ([observer.observe(el)]) and the scroll requests
    ([el.scrollIntoView(options)]), the last two in the order made. *)
Record Page := mkPage {
  document : Document;
  charts   : list (nat * ChartConfig);
  observed : list nat;
  scrolls  : list (nat * ScrollIntoViewOptions)
}.

(** What a click listener sees of its event.  [preventDefault] sets the
    canceled flag of a cancelable event; [stopImmediatePropagation]
    would set the other flag. *)
Record Event := mkEvent {
  cancelable       : bool;
  defaultPrevented : bool;
  immediateStopped : bool
}.

Definition preventDefault (e : Event) : Event :=
  {| cancelable := cancelable e;
     defaultPrevented := cancelable e || defaultPrevented e;
     immediateStopped := immediateStopped e |}.

(** A listener runs with [this] bound to the node it is registered on,
    on the event and the page. *)
Definition Listener : Type := nat → M (Event * Page) unit.

Record World := mkWorld {
  page      : Page;
  listeners : list (nat * Listener)
}.

Definition with_document (f : Document → Document) (p : Page) : Page :=
  {| document := f (document p); charts := charts p;
     observed := observed p; scrolls := scrolls p |}.

Definition with_page (f : Page → Page) (w : World) : World :=
  {| page := f (page w); listeners := listeners w |}.

(** [el.scrollIntoView(options)] *)
Definition scrollIntoView (el : nat) (o : ScrollIntoViewOptions) (p : Page)
  : Page :=
  {| document := document p; charts := charts p;
     observed := observed p; scrolls := scrolls p ++ [(el, o)] |}.

(** [new IntersectionObserver(callback, observerOptions)], lines 58-66:
    a new observer has no targets. *)
Definition newIntersectionObserver (p : Page) : Page :=
  {| document := document p; charts := charts p;
     observed := []; scrolls := scrolls p |}.

(** [observer.observe(el)]: a target is observed once. *)
Definition observe (el : nat) (p : Page) : Page :=
  {| document := document p; charts := charts p;
     observed :=
       if decide (el ∈ observed p) then observed p else observed p ++ [el];
     scrolls := scrolls p |}.

(** [new Chart(ctx, config)], with the library loaded. *)
Definition newChart (ctx : nat) (c : ChartConfig) (p : Page) : Page :=
  {| document := document p; charts := charts p ++ [(ctx, c)];
     observed := observed p; scrolls := scrolls p |}.

(** [anchor.addEventListener('click', listener)] *)
Definition addEventListener (n : nat) (l : Listener) (w : World) : World :=
  {| page := page w; listeners := listeners w ++ [(n, l)] |}.

(** Line 2, [document.getElementById('heroChart').getContext('2d')]:
    reading [getContext] of [null] throws, and so does calling it on an
    element that is not a canvas, which has no such method.  The context
    is identified with its canvas. *)
Definition getContext2d (canvas : option nat) : M World nat :=
  w ← get;
  match canvas with
  | None => throw TypeError
  | Some c =>
      match document (page w) !! c with
      | Some el =>
          if bool_decide (localName el = "canvas") then mret c
          else throw TypeError
      | None => throw TypeError
      end
  end.

(** Lines 1-41: the context, then the gradient (built in
    [HeroChart.gradient]), then the chart. *)
Definition chartInit : M World unit :=
  w ← get;
  ctx ← getContext2d (getElementById "heroChart" (document (page w)));
  modify (with_page (newChart ctx heroChartConfig)).

(** The selector of line 44: [a] elements whose [href] starts with a
    hash sign. *)
Definition anchorSelector : SelectorList :=
  [Compound [TypeSel "a"; AttrPrefixSel "href" "#"]].

(** The selector of line 69: [.glass-card, .member-card,
    .outcomes-list li]. *)
Definition animatedSelector : SelectorList :=
  [Compound [ClassSel "glass-card"];
   Compound [ClassSel "member-card"];
   Descendant (Compound [ClassSel "outcomes-list"]) [TypeSel "li"]].

Section Navigation.

(** The browser's selector parser, for the one selector that is not a
    literal of the script: the [href] of the clicked anchor.  [None] is
    a string that is not a selector. *)
Variable parseSelector : string → option SelectorList.

(** [document.querySelector(s)] on a string; [null] as an argument is
    converted to the string [null].  A string that does not parse
    throws. *)
Definition querySelectorString (s : option string) (d : Document)
  : Error + option nat :=
  match parseSelector (default "null" s) with
  | None => inl SyntaxError
  | Some sels => inr (querySelector sels d)
  end.

(** The click listener of lines 45-50. *)
Definition smoothScroll : Listener := λ this,
  modify (λ '(e, p), (preventDefault e, p)) ;;
  '(e, p) ← get;
  match querySelectorString (document p !! this ≫= getAttribute "href")
          (document p) with
  | inl err => throw err
  | inr None => throw TypeError
  | inr (Some el) =>
      modify (λ '(e, p), (e, scrollIntoView el {| behavior := "smooth" |} p))
  end.

(** The element the [href] of anchor [this] selects on page [p]: the
    lookup of line 47. *)
Definition targetOf (this : nat) (p : Page) : Error + option nat :=
  querySelectorString (document p !! this ≫= getAttribute "href")
    (document p).

Definition Resolves (this : nat) (p : Page) (el : nat) : Prop :=
  targetOf this p = inr (Some el).

Definition Unresolved (this : nat) (p : Page) : Prop :=
  ∀ el, targetOf this p ≠ inr (Some el).

(** Lines 43-51. *)
Definition navInit : M World unit :=
  w ← get;
  forEach (querySelectorAll anchorSelector (document (page w)))
    (λ anchor, modify (addEventListener anchor smoothScroll)).

(** Lines 53-75. *)
Definition revealInit : M World unit :=
  modify (with_page newIntersectionObserver) ;;
  w ← get;
  forEach (querySelectorAll animatedSelector (document (page w)))
    (λ el,
       modify (with_page (with_document (Reveal.hide el))) ;;
       modify (with_page (observe el))).

(** One round of the loop of lines 70-75, on the page. *)
Definition hideAndObserve (p : Page) (el : nat) : Page :=
  observe el (with_document (Reveal.hide el) p).

(** The whole script, in the order of the file. *)
Definition script : M World unit :=
  chartInit ;; navInit ;; revealInit.

(** *** The host: dispatching a click

    The listeners of the clicked node run in the order they were
    added.  An exception thrown by one is reported and the next one
    still runs; [stopImmediatePropagation] ends the run.  The default
    action, the jump to the fragment, follows unless the event was
    canceled. *)
Fixpoint runListeners (ls : list Listener) (this : nat)
    (st : Event * Page) (reported : list Error)
  : (Event * Page) * list Error :=
  match ls with
  | [] => (st, reported)
  | l :: ls' =>
      if immediateStopped (fst st) then (st, reported)
      else
        let '(r, st') := l this st in
        runListeners ls' this st'
          match r with inl err => reported ++ [err] | inr _ => reported end
  end.

Definition listenersOf (n : nat) (w : World) : list Listener :=
  (List.filter (λ nl, bool_decide (fst nl = n)) (listeners w)).*2.

Definition clickEvent : Event :=
  {| cancelable := true; defaultPrevented := false;
     immediateStopped := false |}.

Record ClickOutcome := {
  event_after  : Event;
  page_after   : Page;
  reported     : list Error;
  defaultJump  : bool
}.

Definition click (n : nat) (w : World) : ClickOutcome :=
  let '((e, p), errs) :=
    runListeners (listenersOf n w) n (clickEvent, page w) [] in
  {| event_after := e; page_after := p; reported := errs;
     defaultJump := negb (defaultPrevented e) |}.

End Navigation.

(** The world a click on node [n] leaves: the page as the listeners
    left it, the listeners as they were. *)
Definition afterClick (n : nat) (w : World) : World :=
  {| page := page_after (click n w); listeners := listeners w |}.

(** [k] clicks on node [n], one after the other. *)
Fixpoint clicks (k : nat) (n : nat) (w : World) : World :=
  match k with
  | O => w
  | S k' => clicks k' n (afterClick n w)
  end.

(** The three categories of line 69, spelled out: a card, a member
    card, or a list item below an outcomes list. *)
Definition Animated (d : Document) (n : nat) : Prop :=
  ∃ el, d !! n = Some el ∧
    ("glass-card" ∈ classList el ∨
     "member-card" ∈ classList el ∨
     (localName el = "li" ∧
      ∃ a ela, a ∈ ancestors d n ∧ d !! a = Some ela ∧
               "outcomes-list" ∈ classList ela)).

(** The links of line 44, spelled out: an [a] element whose [href]
    starts with a hash sign. *)
Definition FragmentLink (d : Document) (n : nat) : Prop :=
  ∃ el href, d !! n = Some el ∧ localName el = "a" ∧
    getAttribute "href" el = Some href ∧ String.prefix "#" href = true.

(** Two states of a document that differ at most in inline styles and
    in the class [visible]: the same nodes, with the same names,
    attributes, parents and other classes. *)
Definition Alike (d d' : Document) : Prop :=
  ∀ n,
    match d !! n, d' !! n with
    | Some el, Some el' =>
        localName el' = localName el ∧
        attributes el' = attributes el ∧
        parentNode el' = parentNode el ∧
        ∀ c, c ≠ "visible" → (c ∈ classList el' ↔ c ∈ classList el)
    | None, None => True
    | _, _ => False
    end.

(** The chart surface is there: the element with id [heroChart] is a
    canvas. *)
Definition CanvasPresent (d : Document) (c : nat) : Prop :=
  getElementById "heroChart" d = Some c ∧
  ∃ el, d !! c = Some el ∧ localName el = "canvas".

End Script.

Import Script.

(** ** A sample page

    A small landing page used to run the script on: a canvas, two
    fragment links of which the second points nowhere, and one element
    of each observed category.  [noCanvasPage] is the same page with
    the canvas left out. *)

Module Sample.

Definition node (name : string) (attrs : list (string * string))
    (classes : list string) (parent : option nat) : Element :=
  {| localName := name; attributes := list_to_map attrs;
     classList := classes; style := ∅; parentNode := parent |}.

Definition landingPage : Document :=
  [ node "body" [] [] None;
    node "canvas" [("id", "heroChart")] [] (Some 0);
    node "a" [("href", "#about")] [] (Some 0);
    node "a" [("href", "#missing")] [] (Some 0);
    node "section" [("id", "about")] ["glass-card"] (Some 0);
    node "div" [] ["member-card"] (Some 0);
    node "ul" [] ["outcomes-list"] (Some 0);
    node "li" [] [] (Some 6);
    node "li" [] [] (Some 0) ].

Definition noCanvasPage : Document :=
  [ node "body" [] [] None;
    node "a" [("href", "#about")] [] (Some 0);
    node "section" [("id", "about")] ["glass-card"] (Some 0) ].


(** A page on which the element with id [heroChart] is not a canvas. *)
Definition divChartPage : Document :=
  [ node "body" [] [] None;
    node "div" [("id", "heroChart")] [] (Some 0);
    node "a" [("href", "#about")] [] (Some 0);
    node "section" [("id", "about")] ["glass-card"] (Some 0) ].

(** A page of one card, as the script leaves it: hidden. *)
Definition card : Element := node "div" [] ["glass-card"] None.

Definition hiddenCardPage : Document := [Reveal.hidden card].

Definition freshWorld (d : Document) : World :=
  {| page := {| document := d; charts := []; observed := [];
                scrolls := [] |};
     listeners := [] |}.

(** A selector parser for the selector strings of such a page: [#name]
    and a bare type name, over letters, digits, hyphen and underscore. *)
Definition isNameChar (c : Ascii.ascii) : bool :=
  let n := Ascii.nat_of_ascii c in
  (((97 <=? n) && (n <=? 122)) || ((65 <=? n) && (n <=? 90)) ||
   ((48 <=? n) && (n <=? 57)) || (n =? 45) || (n =? 95))%nat.

Fixpoint allNameChars (s : string) : bool :=
  match s with
  | EmptyString => true
  | String c s' => isNameChar c && allNameChars s'
  end.

Definition isName (s : string) : bool :=
  match s with
  | EmptyString => false
  | String c _ =>
      negb ((48 <=? Ascii.nat_of_ascii c) && (Ascii.nat_of_ascii c <=? 57))%nat
      && allNameChars s
  end.

Definition parseName (s : string) : option SelectorList :=
  match s with
  | String "#"%char name =>
      if isName name then Some [Compound [IdSel name]] else None
  | _ => if isName s then Some [Compound [TypeSel s]] else None
  end.

End Sample.

Import Sample.

(** * Properties *)

(** ** The reveal callback *)

Section RevealFacts.

Import Reveal.

Lemma classList_add_idemp token el :
  classList_add token (classList_add token el) = classList_add token el.
Proof.
  unfold classList_add; simpl.
  destruct (decide (token ∈ classList el)) as [Hin | Hout].
  - by rewrite decide_True.
  - rewrite decide_True; [done |]. set_solver.
Qed.

Lemma classList_add_elem token el : token ∈ classList (classList_add token el).
Proof.
  unfold classList_add; simpl. case_decide; set_solver.
Qed.

Lemma reveal_style el :
  style (reveal el)
  = <["transform" := "translateY(0)"]> (<["opacity" := "1"]> (style el)).
Proof. reflexivity. Qed.

Lemma reveal_Visible el : Visible (reveal el).
Proof.
  split; rewrite reveal_style.
  - rewrite lookup_insert_ne; [ | done]. apply lookup_insert_eq.
  - apply lookup_insert_eq.
Qed.

Lemma reveal_idemp el : reveal (reveal el) = reveal el.
Proof.
  pose proof (classList_add_idemp "visible" el) as Hcl.
  apply (f_equal classList) in Hcl.
  destruct el as [name attrs cl st par].
  unfold reveal, style_set in *; simpl in *. f_equal; [done | ].
  apply map_eq; intros k. rewrite !lookup_insert.
  repeat case_decide; congruence.
Qed.

Lemma onEntry_alter e d :
  onEntry e d = if isIntersecting e then alter reveal (target e) d else d.
Proof.
  unfold onEntry, node_style_set, node_classList_add.
  destruct (isIntersecting e); [ | done].
  by rewrite !list_alter_alter_eq.
Qed.

Lemma onEntry_lookup e d n :
  onEntry e d !! n
  = if isIntersecting e && bool_decide (target e = n)
    then reveal <$> d !! n else d !! n.
Proof.
  rewrite onEntry_alter.
  destruct (isIntersecting e); simpl; [ | done].
  case_bool_decide as Hn.
  - subst n. apply list_lookup_alter_eq.
  - by apply list_lookup_alter_ne.
Qed.

Lemma callback_cons e entries d :
  observer_callback (e :: entries) d = observer_callback entries (onEntry e d).
Proof. reflexivity. Qed.

Lemma callback_lookup entries d n :
  observer_callback entries d !! n
  = if revealedBy entries n then reveal <$> d !! n else d !! n.
Proof.
  revert d. induction entries as [ | e entries IH]; intros d; [done | ].
  rewrite callback_cons, IH, onEntry_lookup. simpl.
  destruct (isIntersecting e && bool_decide (target e = n)); simpl; [ | done].
  destruct (revealedBy entries n); [ | done].
  destruct (d !! n) as [el | ]; simpl; [ | done].
  by rewrite reveal_idemp.
Qed.

Lemma deliver_cons entries batches d :
  deliver (entries :: batches) d = deliver batches (observer_callback entries d).
Proof. reflexivity. Qed.

Lemma deliver_lookup batches d n :
  deliver batches d !! n
  = if existsb (λ entries, revealedBy entries n) batches
    then reveal <$> d !! n else d !! n.
Proof.
  revert d. induction batches as [ | es batches IH]; intros d; [done | ].
  rewrite deliver_cons, IH, callback_lookup. simpl.
  destruct (revealedBy es n); simpl; [ | done].
  destruct (existsb _ batches); [ | done].
  destruct (d !! n) as [el | ]; simpl; [ | done].
  by rewrite reveal_idemp.
Qed.


Lemma revealedBy_true entries e :
  e ∈ entries → isIntersecting e = true → revealedBy entries (target e) = true.
Proof.
  intros Hin Hi. unfold revealedBy.
  apply existsb_exists. exists e. split.
  - by apply list_elem_of_In.
  - rewrite Hi. simpl. by apply bool_decide_eq_true.
Qed.

End RevealFacts.

Section RevealProperties.

Import Reveal.

Lemma onEntry_not_intersecting e d : isIntersecting e = false → onEntry e d = d.
Proof. intros H. unfold onEntry. by rewrite H. Qed.

Lemma callback_idemp entries d :
  observer_callback entries (observer_callback entries d)
  = observer_callback entries d.
Proof.
  apply list_eq; intros n. rewrite !callback_lookup.
  destruct (revealedBy entries n); [ | done].
  destruct (d !! n) as [el | ]; simpl; [ | done].
  by rewrite reveal_idemp.
Qed.

Lemma Visible_not_Hidden el : Visible el → ¬ Hidden el.
Proof. intros [Ho _] [Ho' _]. rewrite Ho in Ho'. discriminate. Qed.

Lemma reported_above_threshold e :
  ReportedFor observerOptions e →
  (threshold observerOptions <= intersectionRatio e)%Q →
  isIntersecting e = true.
Proof.
  unfold ReportedFor, thresholdReached. intros -> Hle.
  by apply Qle_bool_iff.
Qed.

Lemma reported_below_threshold e :
  ReportedFor observerOptions e →
  (intersectionRatio e < threshold observerOptions)%Q →
  isIntersecting e = false.
Proof.
  unfold ReportedFor, thresholdReached. intros -> Hlt.
  apply not_true_is_false. intros Hle. apply Qle_bool_iff in Hle.
  by apply Qle_not_lt in Hle.
Qed.


(** C8.  An element that is visible stays visible under every later
    sequence of callback invocations, whatever their entries say: its
    opacity is not set back to 0 and its offset is not restored. *)
Theorem visible_is_terminal (batches : list (list Entry)) (d : Document)
    (n : nat) (el : Element) :
  d !! n = Some el → Visible el →
  ∃ el', deliver batches d !! n = Some el' ∧ Visible el' ∧ ¬ Hidden el'.
Proof.
  intros Hn Hv. rewrite deliver_lookup, Hn.
  destruct (existsb _ batches); simpl.
  - exists (reveal el). split; [done | ].
    split; [apply reveal_Visible | apply Visible_not_Hidden, reveal_Visible].
  - exists el. auto using Visible_not_Hidden.
Qed.

(** C2.  An intersection event for an element whose ratio exceeds the
    threshold 0.1, reported by the host with its flag set accordingly,
    leaves the element with opacity 1, no offset and the class
    [visible]; every later sequence of events leaves the element as it
    is then, and running the same callback again changes nothing. *)
Theorem crossing_reveals_once (d : Document) (n : nat) (el : Element)
    (e : Entry) (entries : list Entry) (later : list (list Entry)) :
  d !! n = Some el →
  e ∈ entries → target e = n →
  (threshold observerOptions < intersectionRatio e)%Q →
  ReportedFor observerOptions e →
  let d1 := observer_callback entries d in
  ∃ el1, d1 !! n = Some el1 ∧
    style el1 !! "opacity" = Some "1" ∧
    style el1 !! "transform" = Some "translateY(0)" ∧
    "visible" ∈ classList el1 ∧
    deliver later d1 !! n = Some el1 ∧
    observer_callback entries d1 = d1 ∧
    reveal el1 = el1.
Proof.
  intros Hn Hin Ht Hr Hrep d1.
  assert (isIntersecting e = true) as Hi
    by (apply reported_above_threshold; [done | by apply Qlt_le_weak]).
  assert (d1 !! n = Some (reveal el)) as Hd1.
  { unfold d1. rewrite callback_lookup. subst n.
    by rewrite (revealedBy_true entries e), Hn. }
  exists (reveal el). split; [done | ].
  destruct (reveal_Visible el) as [Ho Htr].
  repeat split; try done.
  - apply classList_add_elem.
  - rewrite deliver_lookup, Hd1. simpl.
    destruct (existsb _ later); [ | done]. by rewrite reveal_idemp.
  - apply callback_idemp.
  - apply reveal_idemp.
Qed.

(** C4.  On a document whose only observed element is a card, an event
    with ratio 0.5 leaves the card with opacity 1 and no offset, and an
    event with ratio 0.05 leaves the whole document as it was; the
    events carry the flag the host reports for the threshold 0.1. *)
Theorem card_scenario (d : Document) (n : nat) (el : Element)
    (e_hi e_lo : Entry) :
  d !! n = Some el →
  "glass-card" ∈ classList el →
  querySelectorAll animatedSelector d = [n] →
  target e_hi = n → (intersectionRatio e_hi == 1 # 2)%Q →
  ReportedFor observerOptions e_hi →
  target e_lo = n → (intersectionRatio e_lo == 1 # 20)%Q →
  ReportedFor observerOptions e_lo →
  (∃ el', observer_callback [e_hi] d !! n = Some el' ∧
     style el' !! "opacity" = Some "1" ∧
     style el' !! "transform" = Some "translateY(0)") ∧
  observer_callback [e_lo] d = d.
Proof.
  intros Hn _ _ Thi Rhi Hhi Tlo Rlo Hlo. split.
  - assert (isIntersecting e_hi = true) as Hi.
    { apply reported_above_threshold; [done | ].
      rewrite Rhi. by vm_compute. }
    exists (reveal el). destruct (reveal_Visible el) as [Ho Htr].
    split; [ | done].
    rewrite callback_lookup. subst n.
    rewrite (revealedBy_true [e_hi] e_hi); [by rewrite Hn | set_solver | done].
  - assert (isIntersecting e_lo = false) as Hi.
    { apply reported_below_threshold; [done | ].
      rewrite Rlo. by vm_compute. }
    unfold observer_callback; simpl. by apply onEntry_not_intersecting.
Qed.

End RevealProperties.

(** ** The script at page load *)

Section ScriptFacts.

Import Reveal.

Variable parse : string → option SelectorList.

Lemma forEach_modify {S A} (f : A → S → S) (l : list A) (s : S) :
  forEach l (λ x, modify (f x)) s = (inr tt, foldl (λ s x, f x s) s l).
Proof.
  revert s. induction l as [ | x l IH]; intros s; [done | ].
  simpl. unfold mbind, M_bind, modify at 1. apply IH.
Qed.

Lemma chartInit_present w c :
  CanvasPresent (document (page w)) c →
  chartInit w = (inr tt, with_page (newChart c heroChartConfig) w).
Proof.
  intros [Hid (el & Hel & Hname)].
  unfold chartInit, getContext2d, mbind, M_bind, get; simpl.
  rewrite Hid, Hel. by rewrite bool_decide_eq_true_2.
Qed.

Lemma chartInit_absent w :
  getElementById "heroChart" (document (page w)) = None →
  chartInit w = (inl TypeError, w).
Proof.
  intros Hid.
  unfold chartInit, getContext2d, mbind, M_bind, get; simpl.
  by rewrite Hid.
Qed.

Lemma navInit_run w :
  navInit parse w
  = (inr tt,
     {| page := page w;
        listeners :=
          listeners w ++
          ((λ a, (a, smoothScroll parse))
             <$> querySelectorAll anchorSelector (document (page w))) |}).
Proof.
  unfold navInit, mbind, M_bind, get; simpl.
  rewrite forEach_modify. f_equal.
  generalize (querySelectorAll anchorSelector (document (page w))).
  intros l. revert w. induction l as [ | a l IH]; intros w; simpl.
  - destruct w. simpl. by rewrite app_nil_r.
  - rewrite IH. simpl. by rewrite <- app_assoc.
Qed.

Lemma forEach_hideAndObserve l w :
  forEach l
    (λ el,
       modify (with_page (with_document (Reveal.hide el))) ;;
       modify (with_page (observe el))) w
  = (inr tt, with_page (λ p, foldl hideAndObserve p l) w).
Proof.
  revert w. induction l as [ | x l IH]; intros w; simpl.
  - by destruct w.
  - unfold mbind, M_bind, modify at 1 2. rewrite IH. by destruct w.
Qed.

Lemma revealInit_run w :
  revealInit w
  = (inr tt,
     with_page
       (λ p, foldl hideAndObserve (newIntersectionObserver p)
               (querySelectorAll animatedSelector (document (page w)))) w).
Proof.
  unfold revealInit, mbind, M_bind, get, modify at 1; simpl.
  rewrite forEach_hideAndObserve. by destruct w.
Qed.

Lemma script_absent w :
  getElementById "heroChart" (document (page w)) = None →
  script parse w = (inl TypeError, w).
Proof.
  intros Hid. unfold script, mbind, M_bind.
  by rewrite chartInit_absent.
Qed.

(** The world the script leaves on a page with its canvas. *)
Lemma script_present w c :
  CanvasPresent (document (page w)) c →
  script parse w
  = (inr tt,
     {| page :=
          foldl hideAndObserve
            (newIntersectionObserver (newChart c heroChartConfig (page w)))
            (querySelectorAll animatedSelector (document (page w)));
        listeners :=
          listeners w ++
          ((λ a, (a, smoothScroll parse))
             <$> querySelectorAll anchorSelector (document (page w))) |}).
Proof.
  intros Hc. unfold script, mbind, M_bind.
  rewrite (chartInit_present w c Hc), navInit_run, revealInit_run.
  reflexivity.
Qed.

End ScriptFacts.

(** ** Selectors and the loops of the script *)

Section SelectorFacts.

Import Reveal.

Lemma matchesComplex_in_document d sel n :
  matchesComplex d sel n = true → is_Some (d !! n).
Proof.
  destruct sel as [c | anc c]; simpl; unfold matchesCompound;
    destruct (d !! n); eauto; try done.
Qed.

Lemma elem_of_querySelectorAll sels d n :
  n ∈ querySelectorAll sels d ↔ matchesList d sels n = true.
Proof.
  unfold querySelectorAll. rewrite list_elem_of_In, filter_In, in_seq.
  split; [by intros [_ H] | ]. intros H. split; [ | done].
  unfold matchesList in H. apply existsb_exists in H as (sel & _ & Hsel).
  apply matchesComplex_in_document, lookup_lt_is_Some in Hsel. lia.
Qed.

Lemma querySelectorAll_NoDup sels d : NoDup (querySelectorAll sels d).
Proof.
  unfold querySelectorAll.
  apply NoDup_ListNoDup, List.NoDup_filter, NoDup_ListNoDup, NoDup_seq.
Qed.

Lemma matches_class token d n :
  matchesCompound [ClassSel token] d n = true
  ↔ ∃ el, d !! n = Some el ∧ token ∈ classList el.
Proof.
  unfold matchesCompound. destruct (d !! n) as [el | ]; simpl.
  - rewrite andb_true_r, bool_decide_eq_true. split.
    + intros H. by exists el.
    + by intros (el' & [= <-] & H).
  - split; [done | by intros (el' & [=] & _)].
Qed.

Lemma matches_type name d n :
  matchesCompound [TypeSel name] d n = true
  ↔ ∃ el, d !! n = Some el ∧ localName el = name.
Proof.
  unfold matchesCompound. destruct (d !! n) as [el | ]; simpl.
  - rewrite andb_true_r, bool_decide_eq_true. split.
    + intros H. by exists el.
    + by intros (el' & [= <-] & H).
  - split; [done | by intros (el' & [=] & _)].
Qed.

(** The selector of line 69 selects the three categories. *)
Lemma animatedSelector_spec d n :
  n ∈ querySelectorAll animatedSelector d ↔ Animated d n.
Proof.
  rewrite elem_of_querySelectorAll. unfold matchesList, animatedSelector.
  simpl. rewrite orb_false_r, !orb_true_iff, andb_true_iff.
  rewrite !matches_class, matches_type. unfold Animated.
  rewrite existsb_exists.
  split.
  - intros [(el & Hel & Hc) | [(el & Hel & Hc) | [(el & Hel & Hli) Hanc]]];
      exists el; (split; [done | ]); auto.
    right; right. split; [done | ].
    destruct Hanc as (a & Ha & Hm). apply matches_class in Hm as (ela & ? & ?).
    exists a, ela. by rewrite list_elem_of_In.
  - intros (el & Hel & [Hc | [Hc | (Hli & a & ela & Ha & Hela & Hc)]]).
    + left. eauto.
    + right; left. eauto.
    + right; right. split; [eauto | ].
      exists a. split; [by apply list_elem_of_In | ].
      apply matches_class. eauto.
Qed.

Lemma hide_alter el d : hide el d = alter hidden el d.
Proof.
  unfold hide, hidden, node_style_set. by rewrite !list_alter_alter_eq.
Qed.

Lemma hidden_Hidden el : Hidden (hidden el).
Proof.
  unfold Hidden, hidden, style_set; simpl.
  rewrite !lookup_insert. repeat split; repeat case_decide; done.
Qed.

Lemma hidden_idemp el : hidden (hidden el) = hidden el.
Proof.
  destruct el as [name attrs cl st par].
  unfold hidden, style_set; simpl. f_equal.
  apply map_eq; intros k. rewrite !lookup_insert.
  repeat case_decide; congruence.
Qed.

Lemma hideAndObserve_document p el n :
  document (hideAndObserve p el) !! n
  = if bool_decide (el = n) then hidden <$> document p !! n
    else document p !! n.
Proof.
  unfold hideAndObserve, observe, with_document; simpl.
  rewrite hide_alter. case_bool_decide as Hn.
  - subst n. apply list_lookup_alter_eq.
  - by apply list_lookup_alter_ne.
Qed.

Lemma fold_hide_document els p n :
  document (foldl hideAndObserve p els) !! n
  = if bool_decide (n ∈ els) then hidden <$> document p !! n
    else document p !! n.
Proof.
  revert p. induction els as [ | el els IH]; intros p; cbn [foldl].
  - by rewrite bool_decide_eq_false_2 by set_solver.
  - rewrite IH, hideAndObserve_document.
    destruct (decide (el = n)) as [-> | Hne].
    + rewrite (bool_decide_eq_true_2 (n = n)) by done.
      rewrite (bool_decide_eq_true_2 (n ∈ n :: els)) by set_solver.
      case_bool_decide; [ | done].
      destruct (document p !! n); simpl; [ | done]. by rewrite hidden_idemp.
    + rewrite (bool_decide_eq_false_2 (el = n)) by done.
      rewrite (bool_decide_ext (n ∈ el :: els) (n ∈ els)); [done | ].
      rewrite elem_of_cons. split; [ | by right].
      by intros [-> | H].
Qed.

Lemma fold_hide_observed els p n :
  n ∈ observed (foldl hideAndObserve p els) ↔ n ∈ observed p ∨ n ∈ els.
Proof.
  revert p. induction els as [ | el els IH]; intros p; simpl.
  - rewrite elem_of_nil. tauto.
  - rewrite IH, elem_of_cons. unfold hideAndObserve, observe at 1; simpl.
    case_decide as Hel.
    + split; [tauto | ]. intros [H | [-> | H]]; auto.
    + rewrite elem_of_app, list_elem_of_singleton. tauto.
Qed.

Lemma fold_hide_frame els p :
  charts (foldl hideAndObserve p els) = charts p ∧
  scrolls (foldl hideAndObserve p els) = scrolls p.
Proof.
  revert p. induction els as [ | el els IH]; intros p; simpl; [done | ].
  destruct (IH (hideAndObserve p el)) as [-> ->]. done.
Qed.

End SelectorFacts.

(** ** Clicks *)

Section NavigationFacts.

Variable parse : string → option SelectorList.

Lemma anchorSelector_spec d n :
  n ∈ querySelectorAll anchorSelector d ↔ FragmentLink d n.
Proof.
  rewrite elem_of_querySelectorAll. unfold matchesList, anchorSelector.
  simpl. rewrite orb_false_r. unfold matchesCompound, FragmentLink.
  destruct (d !! n) as [el | ]; simpl.
  - rewrite andb_true_r, andb_true_iff, bool_decide_eq_true. split.
    + intros [Hname Hhref].
      destruct (getAttribute "href" el) as [href | ] eqn:Hget; [ | done].
      by exists el, href.
    + intros (el' & href & [= <-] & Hname & Hget & Hpre).
      by rewrite Hget.
  - split; [done | by intros (el' & href & [=] & _)].
Qed.

Lemma smoothScroll_resolved this e p el :
  Resolves parse this p el →
  smoothScroll parse this (e, p)
  = (inr tt, (preventDefault e, scrollIntoView el {| behavior := "smooth" |} p)).
Proof.
  unfold Resolves, targetOf. intros H.
  unfold smoothScroll, mbind, M_bind, modify, get in *; simpl in *.
  by rewrite H.
Qed.

Lemma smoothScroll_unresolved this p :
  Unresolved parse this p →
  ∃ err, ∀ e,
    smoothScroll parse this (e, p) = (inl err, (preventDefault e, p)).
Proof.
  unfold Unresolved, targetOf. intros H.
  unfold smoothScroll, mbind, M_bind, modify, get, throw in *; simpl in *.
  destruct (querySelectorString parse _ (document p)) as [err | [el | ]].
  - by exists err.
  - by destruct (H el).
  - by exists TypeError.
Qed.

Lemma click_single this w (l : Listener) :
  listenersOf this w = [l] →
  click this w
  = let '(r, (e, p)) := l this (clickEvent, page w) in
    {| event_after := e; page_after := p;
       reported := match r with inl err => [err] | inr _ => [] end;
       defaultJump := negb (defaultPrevented e) |}.
Proof.
  intros Hl. unfold click. rewrite Hl. simpl.
  by destruct (l this (clickEvent, page w)) as [[err | []] [e p]].
Qed.




Lemma listenersOf_app n p ls1 ls2 :
  listenersOf n {| page := p; listeners := ls1 ++ ls2 |}
  = listenersOf n {| page := p; listeners := ls1 |}
    ++ listenersOf n {| page := p; listeners := ls2 |}.
Proof.
  unfold listenersOf; simpl. by rewrite List.filter_app, fmap_app.
Qed.

Lemma listenersOf_registered n p (h : Listener) (l : list nat) :
  NoDup l → n ∈ l →
  listenersOf n {| page := p; listeners := (λ a, (a, h)) <$> l |} = [h].
Proof.
  unfold listenersOf; simpl.
  induction l as [ | a l IH]; intros Hnd Hin; [by apply elem_of_nil in Hin | ].
  apply NoDup_cons in Hnd as [Hnotin Hnd]. simpl.
  case_bool_decide as Ha.
  - subst a. simpl. f_equal.
    clear IH Hin Hnd. induction l as [ | b l IH]; simpl; [done | ].
    apply not_elem_of_cons in Hnotin as [Hne Hnotin].
    rewrite bool_decide_eq_false_2 by done. by apply IH.
  - apply elem_of_cons in Hin as [-> | Hin]; [done | ]. by apply IH.
Qed.


End NavigationFacts.

(** ** The script and the click listener *)

Section ScriptProperties.

Import Reveal.

Variable parse : string → option SelectorList.

(** C1, as amended.  On a page without the chart canvas the script
    throws a [TypeError] at the lookup of line 2 and ends there, with
    the page exactly as it found it: no chart, no click listener added,
    no element hidden or observed. *)
Theorem missing_canvas_aborts (w0 : World) :
  getElementById "heroChart" (document (page w0)) = None →
  script parse w0 = (inl TypeError, w0).
Proof. apply script_absent. Qed.

(** C5.  On a page with its canvas the script constructs one chart on
    that canvas, and the configuration it passes has the labels Jan to
    Jul and the samples 65, 59, 80, 81, 56, 95, 75, in that order. *)
Theorem chart_dataset (w0 : World) (c : nat) :
  CanvasPresent (document (page w0)) c →
  ∃ w cfg, script parse w0 = (inr tt, w) ∧
    charts (page w) = charts (page w0) ++ [(c, cfg)] ∧
    labels (config_data cfg)
      = ["Jan"; "Feb"; "Mar"; "Apr"; "May"; "Jun"; "Jul"] ∧
    data <$> datasets (config_data cfg)
      = [[65; 59; 80; 81; 56; 95; 75]%Z].
Proof.
  intros Hc. eexists _, heroChartConfig.
  split; [by apply script_present | ]. simpl.
  by destruct (fold_hide_frame
    (querySelectorAll animatedSelector (document (page w0)))
    (newIntersectionObserver (newChart c heroChartConfig (page w0))))
    as [-> _].
Qed.

(** C7, as amended.  On a page with its canvas, the script leaves
    every card, member card and outcome list item with opacity 0, the
    offset of 20
    pixels and the transition set, and has put it under observation;
    and every element under observation when the script ends is hidden
    in this way.  The host delivers intersection events only after the
    script, and only for observed elements. *)
Theorem observed_start_hidden (w0 : World) (c n : nat) :
  CanvasPresent (document (page w0)) c →
  Animated (document (page w0)) n →
  ∃ w el, script parse w0 = (inr tt, w) ∧
    document (page w) !! n = Some el ∧ Hidden el ∧
    n ∈ observed (page w) ∧
    ∀ m, m ∈ observed (page w) →
      ∃ el', document (page w) !! m = Some el' ∧ Hidden el'.
Proof.
  intros Hc Hn. pose proof Hn as (el0 & Hel0 & _).
  apply animatedSelector_spec in Hn.
  eexists _, (hidden el0). split; [by apply script_present | ]. simpl.
  split; [ | split; [ | split]].
  - rewrite fold_hide_document, bool_decide_eq_true_2 by done.
    simpl. by rewrite Hel0.
  - apply hidden_Hidden.
  - apply fold_hide_observed. by right.
  - intros m Hm. apply fold_hide_observed in Hm as [Hm | Hm];
      [by apply elem_of_nil in Hm | ].
    pose proof Hm as Hm'.
    apply animatedSelector_spec in Hm' as (elm & Helm & _).
    exists (hidden elm). split; [ | apply hidden_Hidden].
    rewrite fold_hide_document, bool_decide_eq_true_2 by done.
    simpl. by rewrite Helm.
Qed.



(** C9.  The listener cancels the event before it looks the target up:
    on a cancelable event whose anchor has no resolvable target it
    throws, and the event it leaves behind is canceled, so that a click
    handled by this listener is not followed by the default jump. *)
Theorem default_prevented_before_lookup (this : nat) (e : Event) (p : Page) :
  cancelable e = true →
  Unresolved parse this p →
  ∃ err,
    smoothScroll parse this (e, p) = (inl err, (preventDefault e, p)) ∧
    defaultPrevented (preventDefault e) = true ∧
    ∀ w, page w = p → listenersOf this w = [smoothScroll parse] →
      click this w
      = {| event_after := preventDefault clickEvent; page_after := p;
           reported := [err]; defaultJump := false |}.
Proof.
  intros Hc Hun.
  destruct (smoothScroll_unresolved parse this p Hun) as [err Herr].
  exists err. split; [done | ]. split; [simpl; by rewrite Hc | ].
  intros w <- Hl. by rewrite (click_single this w _ Hl), Herr.
Qed.

End ScriptProperties.

(** ** The sample page *)

Section Instances.

Import Reveal.

Lemma landingPage_canvas : CanvasPresent landingPage 1.
Proof.
  split; [reflexivity | ].
  exists (node "canvas" [("id", "heroChart")] [] (Some 0)).
  split; reflexivity.
Defined.

Lemma missing_link_unresolved p :
  document p = landingPage → Unresolved parseName 3 p.
Proof.
  intros Hd el. unfold targetOf. rewrite Hd. vm_compute. discriminate.
Defined.

(** C1 as stated fails on [noCanvasPage]: the page has no canvas, one
    fragment link and one card; the script ends with no listener, no
    observed element and an untouched document, and a click on the link
    is followed by the default jump. *)
Lemma missing_canvas_counterexample :
  getElementById "heroChart" noCanvasPage = None ∧
  querySelectorAll anchorSelector noCanvasPage = [1] ∧
  querySelectorAll animatedSelector noCanvasPage = [2] ∧
  let w := snd (script parseName (freshWorld noCanvasPage)) in
  listeners w = [] ∧
  observed (page w) = [] ∧
  document (page w) = noCanvasPage ∧
  scrolls (page_after (click 1 w)) = [] ∧
  defaultJump (click 1 w) = true.
Proof. vm_compute. repeat split; reflexivity. Qed.

Lemma missing_canvas_aborts_witness :
  getElementById "heroChart" (document (page (freshWorld noCanvasPage)))
    = None ∧
  script parseName (freshWorld noCanvasPage)
    = (inl TypeError, freshWorld noCanvasPage).
Proof.
  split; [reflexivity | ].
  apply (missing_canvas_aborts parseName (freshWorld noCanvasPage)).
  reflexivity.
Defined.

Lemma chart_dataset_witness :
  CanvasPresent landingPage 1 ∧
  ∃ w cfg, script parseName (freshWorld landingPage) = (inr tt, w) ∧
    charts (page w) = [(1, cfg)] ∧
    labels (config_data cfg)
      = ["Jan"; "Feb"; "Mar"; "Apr"; "May"; "Jun"; "Jul"] ∧
    data <$> datasets (config_data cfg)
      = [[65; 59; 80; 81; 56; 95; 75]%Z].
Proof.
  split; [exact landingPage_canvas | ].
  exact (chart_dataset parseName (freshWorld landingPage) 1
           landingPage_canvas).
Defined.

Lemma landingPage_item : Animated landingPage 7.
Proof.
  exists (node "li" [] [] (Some 6)). split; [reflexivity | ].
  right; right. split; [reflexivity | ].
  exists 6, (node "ul" [] ["outcomes-list"] (Some 0)).
  split; [apply list_elem_of_here | ].
  split; [reflexivity | apply list_elem_of_here].
Defined.

Lemma observed_start_hidden_witness :
  CanvasPresent landingPage 1 ∧ Animated landingPage 7 ∧
  ∃ w el, script parseName (freshWorld landingPage) = (inr tt, w) ∧
    document (page w) !! 7 = Some el ∧ Hidden el ∧
    7 ∈ observed (page w) ∧
    ∀ m, m ∈ observed (page w) →
      ∃ el', document (page w) !! m = Some el' ∧ Hidden el'.
Proof.
  split; [exact landingPage_canvas | ].
  split; [exact landingPage_item | ].
  exact (observed_start_hidden parseName (freshWorld landingPage) 1 7
           landingPage_canvas landingPage_item).
Defined.







(** C7 as stated fails on [noCanvasPage]: the page has no canvas and
    one card; after the script the card has no inline style at all and
    nothing is observed. *)
Lemma card_not_hidden_without_canvas :
  let w := snd (script parseName (freshWorld noCanvasPage)) in
  getElementById "heroChart" noCanvasPage = None ∧
  Animated noCanvasPage 2 ∧
  (∃ el, document (page w) !! 2 = Some el ∧
         style el !! "opacity" = None ∧
         style el !! "transform" = None ∧
         style el !! "transition" = None ∧
         ¬ Reveal.Hidden el) ∧
  observed (page w) = [].
Proof.
  intros w. split; [reflexivity | ]. split.
  - exists (node "section" [("id", "about")] ["glass-card"] (Some 0)).
    split; [reflexivity | ]. left. apply list_elem_of_here.
  - split; [ | reflexivity].
    exists (node "section" [("id", "about")] ["glass-card"] (Some 0)).
    repeat split; try reflexivity.
    intros [Ho _]. vm_compute in Ho. discriminate.
Qed.

Lemma default_prevented_before_lookup_witness :
  let p := page (freshWorld landingPage) in
  cancelable clickEvent = true ∧ Unresolved parseName 3 p ∧
  ∃ err,
    smoothScroll parseName 3 (clickEvent, p)
      = (inl err, (preventDefault clickEvent, p)) ∧
    defaultPrevented (preventDefault clickEvent) = true ∧
    ∀ w, page w = p → listenersOf 3 w = [smoothScroll parseName] →
      click 3 w
      = {| event_after := preventDefault clickEvent; page_after := p;
           reported := [err]; defaultJump := false |}.
Proof.
  intros p. split; [reflexivity | ].
  split; [by apply missing_link_unresolved | ].
  apply (default_prevented_before_lookup parseName 3 clickEvent p).
  - reflexivity.
  - by apply missing_link_unresolved.
Defined.


Lemma visible_is_terminal_witness :
  let d := [reveal (hidden card)] in
  let batches := [[mkEntry 0 false 0]; [mkEntry 0 true (1 # 2)];
                  [mkEntry 0 false 0]] in
  d !! 0 = Some (reveal (hidden card)) ∧ Visible (reveal (hidden card)) ∧
  ∃ el', deliver batches d !! 0 = Some el' ∧ Visible el' ∧ ¬ Hidden el'.
Proof.
  intros d batches.
  assert (Visible (reveal (hidden card))) as Hv by (split; reflexivity).
  split; [reflexivity | ]. split; [exact Hv | ].
  exact (visible_is_terminal batches d 0 (reveal (hidden card)) eq_refl Hv).
Defined.

Lemma crossing_reveals_once_witness :
  let e := mkEntry 0 true (1 # 2) in
  let d1 := observer_callback [e] hiddenCardPage in
  (threshold observerOptions < intersectionRatio e)%Q ∧
  ReportedFor observerOptions e ∧
  ∃ el1, d1 !! 0 = Some el1 ∧
    style el1 !! "opacity" = Some "1" ∧
    style el1 !! "transform" = Some "translateY(0)" ∧
    "visible" ∈ classList el1 ∧
    deliver [[mkEntry 0 false 0]; [e]] d1 !! 0 = Some el1 ∧
    observer_callback [e] d1 = d1 ∧
    reveal el1 = el1.
Proof.
  intros e d1.
  split; [reflexivity | ]. split; [reflexivity | ].
  apply (crossing_reveals_once hiddenCardPage 0 (hidden card) e [e]
           [[mkEntry 0 false 0]; [e]]).
  - reflexivity.
  - apply list_elem_of_here.
  - reflexivity.
  - reflexivity.
  - reflexivity.
Defined.

Lemma card_scenario_witness :
  let e_hi := mkEntry 0 true (1 # 2) in
  let e_lo := mkEntry 0 false (1 # 20) in
  querySelectorAll animatedSelector hiddenCardPage = [0] ∧
  ReportedFor observerOptions e_hi ∧ ReportedFor observerOptions e_lo ∧
  (∃ el', observer_callback [e_hi] hiddenCardPage !! 0 = Some el' ∧
     style el' !! "opacity" = Some "1" ∧
     style el' !! "transform" = Some "translateY(0)") ∧
  observer_callback [e_lo] hiddenCardPage = hiddenCardPage.
Proof.
  intros e_hi e_lo.
  split; [reflexivity | ]. split; [reflexivity | ]. split; [reflexivity | ].
  apply (card_scenario hiddenCardPage 0 (hidden card) e_hi e_lo).
  - reflexivity.
  - apply list_elem_of_here.
  - reflexivity.
  - reflexivity.
  - reflexivity.
  - reflexivity.
  - reflexivity.
  - reflexivity.
  - reflexivity.
Defined.

End Instances.

(** * Further properties *)

(** ** What the reveal callback leaves alone *)

Section RevealFrame.

Import Reveal.

Lemma reveal_frame el :
  localName (reveal el) = localName el ∧
  attributes (reveal el) = attributes el ∧
  parentNode (reveal el) = parentNode el ∧
  (∀ c, c ∈ classList (reveal el) ↔ c ∈ classList el ∨ c = "visible") ∧
  (∀ prop, prop ≠ "opacity" → prop ≠ "transform" →
     style (reveal el) !! prop = style el !! prop).
Proof.
  repeat split; try reflexivity.
  - unfold reveal, style_set, classList_add; simpl.
    case_decide as Hin.
    + by left.
    + rewrite elem_of_app, list_elem_of_singleton. tauto.
  - unfold reveal, style_set, classList_add; simpl.
    case_decide as Hin.
    + intros [H | ->]; done.
    + rewrite elem_of_app, list_elem_of_singleton. tauto.
  - intros prop Ho Ht. rewrite reveal_style.
    rewrite !lookup_insert_ne; done.
Qed.

Lemma onEntry_length e d : length (onEntry e d) = length d.
Proof.
  rewrite onEntry_alter. destruct (isIntersecting e); [ | done].
  apply length_alter.
Qed.

Lemma callback_length entries d :
  length (observer_callback entries d) = length d.
Proof.
  revert d. induction entries as [ | e entries IH]; intros d; [done | ].
  by rewrite callback_cons, IH, onEntry_length.
Qed.

Lemma deliver_length batches d : length (deliver batches d) = length d.
Proof.
  revert d. induction batches as [ | es batches IH]; intros d; [done | ].
  by rewrite deliver_cons, IH, callback_length.
Qed.

(** X1.  Whatever entries it is given, the callback changes nothing of
    an element but its classes, to which it can only add [visible],
    and the two style properties [opacity] and [transform]; it adds and
    removes no element. *)
Theorem callback_frame (batches : list (list Entry)) (d : Document)
    (n : nat) (el : Element) :
  d !! n = Some el →
  length (deliver batches d) = length d ∧
  ∃ el', deliver batches d !! n = Some el' ∧
    localName el' = localName el ∧
    attributes el' = attributes el ∧
    parentNode el' = parentNode el ∧
    (∀ c, c ∈ classList el → c ∈ classList el') ∧
    (∀ c, c ∈ classList el' → c ∈ classList el ∨ c = "visible") ∧
    (∀ prop, prop ≠ "opacity" → prop ≠ "transform" →
       style el' !! prop = style el !! prop).
Proof.
  intros Hn. split; [apply deliver_length | ].
  rewrite deliver_lookup, Hn.
  destruct (existsb _ batches); simpl.
  - exists (reveal el). split; [done | ].
    destruct (reveal_frame el) as (Hname & Hattrs & Hpar & Hcl & Hst).
    repeat split; try done.
    + intros c Hc. apply Hcl. by left.
    + intros c Hc. by apply Hcl.
  - exists el. repeat split; auto.
Qed.

Lemma revealedBy_Permutation es1 es2 n :
  es1 ≡ₚ es2 → revealedBy es1 n = revealedBy es2 n.
Proof.
  intros Hp. unfold revealedBy. apply Bool.eq_iff_eq_true.
  rewrite !existsb_exists. split; intros (e & Hin & He); exists e;
    (split; [ | done]).
  - by apply (Permutation_in _ Hp).
  - by apply (Permutation_in _ (Permutation_sym Hp)).
Qed.

(** X2.  The order of the entries within a batch does not matter: two
    batches with the same entries leave the same document. *)
Theorem callback_order_irrelevant (es1 es2 : list Entry) (d : Document) :
  es1 ≡ₚ es2 →
  observer_callback es1 d = observer_callback es2 d.
Proof.
  intros Hp. apply list_eq; intros n.
  by rewrite !callback_lookup, (revealedBy_Permutation es1 es2 n Hp).
Qed.

End RevealFrame.

(** ** What the script sets up, and what it leaves alone *)

Section ScriptFrame.

Import Reveal.

Variable parse : string → option SelectorList.

Lemma hidden_frame el :
  localName (hidden el) = localName el ∧
  attributes (hidden el) = attributes el ∧
  classList (hidden el) = classList el ∧
  parentNode (hidden el) = parentNode el.
Proof. done. Qed.

Lemma fold_hide_length els p :
  length (document (foldl hideAndObserve p els)) = length (document p).
Proof.
  revert p. induction els as [ | el els IH]; intros p; simpl; [done | ].
  rewrite IH. unfold hideAndObserve, observe, with_document; simpl.
  rewrite hide_alter. apply length_alter.
Qed.

Lemma fold_hide_observed_eq els p :
  NoDup els → (∀ x, x ∈ els → x ∉ observed p) →
  observed (foldl hideAndObserve p els) = observed p ++ els.
Proof.
  revert p. induction els as [ | el els IH]; intros p Hnd Hfresh; simpl.
  - by rewrite app_nil_r.
  - apply NoDup_cons in Hnd as [Hel Hnd].
    assert (observed (hideAndObserve p el) = observed p ++ [el]) as Hobs.
    { unfold hideAndObserve, observe; simpl.
      rewrite decide_False; [done | ]. apply Hfresh, list_elem_of_here. }
    rewrite IH, Hobs; [by rewrite <- app_assoc | done | ].
    intros x Hx. rewrite Hobs, elem_of_app, list_elem_of_singleton.
    intros [Hin | ->]; [ | done].
    by apply (Hfresh x); [apply list_elem_of_further | ].
Qed.

Lemma reveal_hidden_transition el :
  style (reveal (hidden el)) !! "transition"
  = Some "opacity 0.6s ease-out, transform 0.6s ease-out".
Proof.
  destruct (reveal_frame (hidden el)) as (_ & _ & _ & _ & Hst).
  rewrite Hst; [ | done | done]. by destruct (hidden_Hidden el) as (_ & _ & ?).
Qed.

(** X4.  The life of an observed element.  After the script, and after
    any sequence of callback invocations, a card, member card or
    outcome list item is in one of two states: still hidden, if no
    entry for it was intersecting so far, and otherwise visible, with
    the class [visible] and with the transition of line 73 still set,
    so that the change is animated. *)
Theorem observed_element_lifecycle (w0 : World) (c n : nat)
    (batches : list (list Entry)) :
  CanvasPresent (document (page w0)) c →
  Animated (document (page w0)) n →
  ∃ w el, script parse w0 = (inr tt, w) ∧
    deliver batches (document (page w)) !! n = Some el ∧
    style el !! "transition"
      = Some "opacity 0.6s ease-out, transform 0.6s ease-out" ∧
    if existsb (λ entries, revealedBy entries n) batches
    then Visible el ∧ "visible" ∈ classList el
    else Hidden el.
Proof.
  intros Hc Hn. pose proof Hn as (el0 & Hel0 & _).
  apply animatedSelector_spec in Hn.
  eexists. eexists (if existsb (λ entries, revealedBy entries n) batches
                    then reveal (hidden el0) else hidden el0).
  split; [by apply script_present | ]. simpl.
  rewrite deliver_lookup, fold_hide_document, bool_decide_eq_true_2 by done.
  simpl. rewrite Hel0. simpl.
  destruct (existsb _ batches).
  - split; [done | ]. split; [apply reveal_hidden_transition | ].
    split; [apply reveal_Visible | apply classList_add_elem].
  - split; [done | ]. split; [ | apply hidden_Hidden].
    by destruct (hidden_Hidden el0) as (_ & _ & ?).
Qed.

Lemma chartInit_not_canvas w c :
  getElementById "heroChart" (document (page w)) = Some c →
  (∀ el, document (page w) !! c = Some el → localName el ≠ "canvas") →
  chartInit w = (inl TypeError, w).
Proof.
  intros Hid Hno.
  unfold chartInit, getContext2d, mbind, M_bind, get, throw; simpl.
  rewrite Hid. destruct (document (page w) !! c) as [el | ] eqn:Hel; [ | done].
  by rewrite bool_decide_eq_false_2 by (by apply Hno).
Qed.

(** X5.  The script needs a canvas with the id [heroChart]: when there
    is no element with that id, or the element with that id is not a
    canvas, the script throws a [TypeError] at line 2 and leaves the
    page and its listeners exactly as they were. *)
Theorem script_needs_canvas (w : World) :
  (∀ c, ¬ CanvasPresent (document (page w)) c) →
  script parse w = (inl TypeError, w).
Proof.
  intros Hno.
  destruct (getElementById "heroChart" (document (page w))) as [c | ] eqn:Hid;
    [ | by apply script_absent].
  unfold script, mbind, M_bind.
  rewrite (chartInit_not_canvas w c Hid); [done | ].
  intros el Hel Hname. apply (Hno c). split; [done | by exists el].
Qed.

(** X6.  The observer's targets after the script are exactly the cards,
    member cards and outcome list items of the page, in document order
    and each once, also when an element belongs to more than one
    category. *)
Theorem observed_exactly_animated (w0 : World) (c : nat) :
  CanvasPresent (document (page w0)) c →
  ∃ w, script parse w0 = (inr tt, w) ∧
    observed (page w)
      = querySelectorAll animatedSelector (document (page w0)) ∧
    NoDup (observed (page w)) ∧
    ∀ n, n ∈ observed (page w) ↔ Animated (document (page w0)) n.
Proof.
  intros Hc. eexists. split; [by apply script_present | ]. simpl.
  assert (observed
      (foldl hideAndObserve
         (newIntersectionObserver (newChart c heroChartConfig (page w0)))
         (querySelectorAll animatedSelector (document (page w0))))
    = querySelectorAll animatedSelector (document (page w0))) as ->.
  { rewrite fold_hide_observed_eq; [done | apply querySelectorAll_NoDup | ].
    intros x _. simpl. apply not_elem_of_nil. }
  split; [done | ]. split; [apply querySelectorAll_NoDup | ].
  intros n. apply animatedSelector_spec.
Qed.

(** X7.  The script changes the page in no other way: it adds and
    removes no element, requests no scroll, and keeps of every element
    the name, the attributes, the classes and the parent; an element
    outside the three categories is left exactly as it was. *)
Theorem script_frame (w0 : World) (c n : nat) (el : Element) :
  CanvasPresent (document (page w0)) c →
  document (page w0) !! n = Some el →
  ∃ w el', script parse w0 = (inr tt, w) ∧
    length (document (page w)) = length (document (page w0)) ∧
    scrolls (page w) = scrolls (page w0) ∧
    document (page w) !! n = Some el' ∧
    localName el' = localName el ∧
    attributes el' = attributes el ∧
    classList el' = classList el ∧
    parentNode el' = parentNode el ∧
    (¬ Animated (document (page w0)) n → el' = el).
Proof.
  intros Hc Hn.
  set (els := querySelectorAll animatedSelector (document (page w0))).
  eexists. exists (if bool_decide (n ∈ els) then hidden el else el).
  split; [by apply script_present | ]. simpl. fold els.
  split; [by rewrite fold_hide_length | ].
  split; [by destruct (fold_hide_frame els
    (newIntersectionObserver (newChart c heroChartConfig (page w0))))
    as [_ ->] | ].
  rewrite fold_hide_document. simpl. rewrite Hn.
  case_bool_decide as Hin; simpl.
  - repeat split; try done.
    intros Hnot. destruct Hnot. by apply animatedSelector_spec.
  - repeat split; done.
Qed.

End ScriptFrame.

(** ** The click listener, its registration and its repetition *)

Section NavigationFrame.

Variable parse : string → option SelectorList.

Lemma listenersOf_unregistered n p (h : Listener) (l : list nat) :
  n ∉ l →
  listenersOf n {| page := p; listeners := (λ a, (a, h)) <$> l |} = [].
Proof.
  unfold listenersOf; simpl.
  induction l as [ | a l IH]; intros Hn; simpl; [done | ].
  apply not_elem_of_cons in Hn as [Hne Hn].
  rewrite bool_decide_eq_false_2 by done. by apply IH.
Qed.

(** X8.  The script adds its click listener to the fragment links and
    to nothing else, once each, and behind the listeners a node already
    has, which are kept in their order. *)
Theorem listeners_only_on_links (w0 : World) (c n : nat) :
  CanvasPresent (document (page w0)) c →
  ∃ w, script parse w0 = (inr tt, w) ∧
    (FragmentLink (document (page w0)) n →
       listenersOf n w = listenersOf n w0 ++ [smoothScroll parse]) ∧
    (¬ FragmentLink (document (page w0)) n →
       listenersOf n w = listenersOf n w0).
Proof.
  intros Hc. eexists. split; [by apply script_present | ].
  set (links := querySelectorAll anchorSelector (document (page w0))).
  assert (∀ p, listenersOf n {| page := p; listeners := listeners w0 |}
               = listenersOf n w0) as Hold by done.
  split; intros Hn; rewrite listenersOf_app, Hold.
  - f_equal. apply listenersOf_registered; [apply querySelectorAll_NoDup | ].
    by apply anchorSelector_spec.
  - rewrite listenersOf_unregistered; [by rewrite app_nil_r | ].
    intros Hin. by apply Hn, anchorSelector_spec.
Qed.

(** X9.  Whatever the anchor and the page, the listener touches
    nothing but the canceled flag of the event and the scroll requests:
    it never stops the propagation of the event, never changes the
    document, the charts or the observer, and asks for at most one
    scroll, a smooth one. *)
Theorem smoothScroll_frame (this : nat) (e : Event) (p : Page) :
  let e' := fst (snd (smoothScroll parse this (e, p))) in
  let p' := snd (snd (smoothScroll parse this (e, p))) in
  e' = preventDefault e ∧
  immediateStopped e' = immediateStopped e ∧
  document p' = document p ∧
  charts p' = charts p ∧
  observed p' = observed p ∧
  (scrolls p' = scrolls p ∨
   ∃ el, scrolls p' = scrolls p ++ [(el, {| behavior := "smooth" |})]).
Proof.
  destruct (targetOf parse this p) as [err | [el | ]] eqn:Ht.
  - assert (Unresolved parse this p) as Hun
      by (intros el; by rewrite Ht).
    destruct (smoothScroll_unresolved parse this p Hun) as [err' Herr].
    rewrite Herr. simpl. auto 10.
  - rewrite (smoothScroll_resolved parse this e p el Ht). simpl.
    repeat split; eauto.
  - assert (Unresolved parse this p) as Hun
      by (intros el; by rewrite Ht).
    destruct (smoothScroll_unresolved parse this p Hun) as [err' Herr].
    rewrite Herr. simpl. auto 10.
Qed.

Lemma afterClick_resolved a w el :
  listenersOf a w = [smoothScroll parse] →
  Resolves parse a (page w) el →
  afterClick a w
  = {| page := scrollIntoView el {| behavior := "smooth" |} (page w);
       listeners := listeners w |}.
Proof.
  intros Hl Hres. unfold afterClick.
  rewrite (click_single a w _ Hl).
  by rewrite (smoothScroll_resolved parse a clickEvent (page w) el Hres).
Qed.

(** X10.  Clicks add up: [k] clicks on a link whose target resolves
    leave [k] requests for a smooth scroll to that target behind the
    earlier ones, and the document as it was, so that the link resolves
    to the same element at every click. *)
Theorem repeated_clicks (k a : nat) (w : World) (el : nat) :
  listenersOf a w = [smoothScroll parse] →
  Resolves parse a (page w) el →
  scrolls (page (clicks k a w))
    = scrolls (page w) ++ replicate k (el, {| behavior := "smooth" |}) ∧
  document (page (clicks k a w)) = document (page w) ∧
  listeners (clicks k a w) = listeners w.
Proof.
  revert w. induction k as [ | k IH]; intros w Hl Hres; simpl.
  - by rewrite app_nil_r.
  - rewrite (afterClick_resolved a w el Hl Hres).
    set (w1 := {| page := scrollIntoView el {| behavior := "smooth" |}
                            (page w);
                  listeners := listeners w |}).
    destruct (IH w1) as (Hs & Hd & Hls); [done | done | ].
    rewrite Hs, Hd, Hls. simpl. by rewrite <- app_assoc.
Qed.

(** X11.  Which error a failed click throws: a [SyntaxError] when the
    [href] of the anchor is not a selector, a [TypeError] when it is
    one that selects nothing.  In both cases the page is left as it
    was and the event is left canceled. *)
Theorem failed_click_error (this : nat) (a : Element) (href : string)
    (e : Event) (p : Page) :
  document p !! this = Some a →
  getAttribute "href" a = Some href →
  Unresolved parse this p →
  smoothScroll parse this (e, p)
  = (inl match parse href with
         | Some _ => TypeError
         | None => SyntaxError
         end,
     (preventDefault e, p)).
Proof.
  intros Ha Hhref Hun.
  unfold Unresolved, targetOf, smoothScroll, querySelectorString in *.
  unfold mbind at 1 2, M_bind, modify, get, throw. simpl.
  rewrite Ha in *. simpl in *. rewrite Hhref in *. simpl in *.
  destruct (parse href) as [sels | ]; [ | done].
  destruct (querySelector sels (document p)) as [el | ]; [ | done].
  by destruct (Hun el).
Qed.

End NavigationFrame.

(** ** The categories of the page are not disturbed *)

Section Categories.

Import Reveal.

Lemma Alike_sym d d' : Alike d d' → Alike d' d.
Proof.
  intros H n. specialize (H n).
  destruct (d !! n) as [el | ], (d' !! n) as [el' | ]; try done.
  destruct H as (Hname & Hattrs & Hpar & Hcl).
  repeat split; try done; by apply Hcl.
Qed.

Lemma Alike_length_le d d' : Alike d d' → (length d' ≤ length d)%nat.
Proof.
  intros H. specialize (H (length d)).
  rewrite (lookup_ge_None_2 d (length d)) in H by done.
  destruct (d' !! length d) as [el' | ] eqn:Hl; [done | ].
  by apply lookup_ge_None in Hl.
Qed.

Lemma Alike_length d d' : Alike d d' → length d' = length d.
Proof.
  intros H. apply Nat.le_antisymm.
  - by apply Alike_length_le.
  - by apply Alike_length_le, Alike_sym.
Qed.

Lemma Alike_parent d d' n :
  Alike d d' → d' !! n ≫= parentNode = d !! n ≫= parentNode.
Proof.
  intros H. specialize (H n).
  destruct (d !! n) as [el | ], (d' !! n) as [el' | ]; try done.
  simpl. by destruct H as (_ & _ & -> & _).
Qed.

Lemma Alike_ancestors d d' n :
  Alike d d' → ancestors d' n = ancestors d n.
Proof.
  intros H. unfold ancestors. rewrite (Alike_length d d' H).
  generalize (length d). intros fuel. revert n.
  induction fuel as [ | fuel IH]; intros n; simpl; [done | ].
  rewrite (Alike_parent d d' n H).
  destruct (d !! n ≫= parentNode); [by rewrite IH | done].
Qed.

Lemma Animated_Alike d d' n : Alike d d' → Animated d n → Animated d' n.
Proof.
  intros H (el & Hel & Hcat).
  pose proof (H n) as Hn. rewrite Hel in Hn.
  destruct (d' !! n) as [el' | ] eqn:Hel'; [ | done].
  destruct Hn as (Hname & _ & _ & Hcl).
  exists el'. split; [done | ].
  destruct Hcat as [Hc | [Hc | (Hli & a & ela & Ha & Hela & Hc)]].
  - left. by apply Hcl.
  - right; left. by apply Hcl.
  - right; right. split; [congruence | ].
    pose proof (H a) as Hanc. rewrite Hela in Hanc.
    destruct (d' !! a) as [ela' | ] eqn:Hela'; [ | done].
    destruct Hanc as (_ & _ & _ & Hcla).
    exists a, ela'. rewrite (Alike_ancestors d d' n H).
    split; [done | ]. split; [done | by apply Hcla].
Qed.

Lemma FragmentLink_Alike d d' n :
  Alike d d' → FragmentLink d n → FragmentLink d' n.
Proof.
  intros H (el & href & Hel & Hname & Hhref & Hpre).
  pose proof (H n) as Hn. rewrite Hel in Hn.
  destruct (d' !! n) as [el' | ] eqn:Hel'; [ | done].
  destruct Hn as (Hname' & Hattrs & _ & _).
  exists el', href. unfold getAttribute in *.
  split; [done | ]. split; [congruence | ]. by rewrite Hattrs.
Qed.

Lemma deliver_Alike batches d : Alike d (deliver batches d).
Proof.
  intros n. rewrite deliver_lookup.
  destruct (d !! n) as [el | ]; [ | by destruct (existsb _ batches)].
  destruct (existsb _ batches); simpl; [ | done].
  destruct (reveal_frame el) as (Hname & Hattrs & Hpar & Hcl & _).
  repeat split; try done.
  - intros Hc. apply Hcl in Hc as [Hc | ->]; done.
  - intros Hc. apply Hcl. by left.
Qed.

(** X12.  Revealing elements does not change what the selectors of the
    script select: after any sequence of callback invocations the
    cards, member cards and outcome list items are the same elements,
    and so are the fragment links. *)
Theorem categories_stable (batches : list (list Entry)) (d : Document)
    (n : nat) :
  (Animated (deliver batches d) n ↔ Animated d n) ∧
  (FragmentLink (deliver batches d) n ↔ FragmentLink d n).
Proof.
  pose proof (deliver_Alike batches d) as H.
  pose proof (Alike_sym _ _ H) as H'.
  split; split; eauto using Animated_Alike, FragmentLink_Alike.
Qed.

End Categories.

(** ** The further properties on the sample page *)

Section FurtherInstances.

Import Reveal.

Lemma callback_frame_witness :
  let batches := [[mkEntry 4 true (1 # 2)]; [mkEntry 4 false 0]] in
  let el := node "section" [("id", "about")] ["glass-card"] (Some 0) in
  landingPage !! 4 = Some el ∧
  length (deliver batches landingPage) = length landingPage ∧
  ∃ el', deliver batches landingPage !! 4 = Some el' ∧
    localName el' = localName el ∧
    attributes el' = attributes el ∧
    parentNode el' = parentNode el ∧
    (∀ c, c ∈ classList el → c ∈ classList el') ∧
    (∀ c, c ∈ classList el' → c ∈ classList el ∨ c = "visible") ∧
    (∀ prop, prop ≠ "opacity" → prop ≠ "transform" →
       style el' !! prop = style el !! prop).
Proof.
  intros batches el. split; [reflexivity | ].
  exact (callback_frame batches landingPage 4 el eq_refl).
Defined.

Lemma callback_order_irrelevant_witness :
  let e1 := mkEntry 4 true (1 # 2) in
  let e2 := mkEntry 5 false 0 in
  [e1; e2] ≡ₚ [e2; e1] ∧
  observer_callback [e1; e2] landingPage
  = observer_callback [e2; e1] landingPage.
Proof.
  intros e1 e2.
  assert ([e1; e2] ≡ₚ [e2; e1]) as Hp by apply perm_swap.
  split; [exact Hp | ].
  exact (callback_order_irrelevant [e1; e2] [e2; e1] landingPage Hp).
Defined.

Lemma observed_element_lifecycle_witness :
  let batches := [[mkEntry 7 false 0]; [mkEntry 7 true (1 # 2)]] in
  CanvasPresent landingPage 1 ∧ Animated landingPage 7 ∧
  ∃ w el, script parseName (freshWorld landingPage) = (inr tt, w) ∧
    deliver batches (document (page w)) !! 7 = Some el ∧
    style el !! "transition"
      = Some "opacity 0.6s ease-out, transform 0.6s ease-out" ∧
    if existsb (λ entries, revealedBy entries 7) batches
    then Visible el ∧ "visible" ∈ classList el
    else Hidden el.
Proof.
  intros batches.
  split; [exact landingPage_canvas | ].
  split; [exact landingPage_item | ].
  exact (observed_element_lifecycle parseName (freshWorld landingPage) 1 7
           batches landingPage_canvas landingPage_item).
Defined.

Lemma observed_exactly_animated_witness :
  CanvasPresent landingPage 1 ∧
  ∃ w, script parseName (freshWorld landingPage) = (inr tt, w) ∧
    observed (page w) = querySelectorAll animatedSelector landingPage ∧
    NoDup (observed (page w)) ∧
    ∀ n, n ∈ observed (page w) ↔ Animated landingPage n.
Proof.
  split; [exact landingPage_canvas | ].
  exact (observed_exactly_animated parseName (freshWorld landingPage) 1
           landingPage_canvas).
Defined.

Lemma script_frame_witness :
  let el := node "a" [("href", "#about")] [] (Some 0) in
  CanvasPresent landingPage 1 ∧ landingPage !! 2 = Some el ∧
  ∃ w el', script parseName (freshWorld landingPage) = (inr tt, w) ∧
    length (document (page w)) = length landingPage ∧
    scrolls (page w) = [] ∧
    document (page w) !! 2 = Some el' ∧
    localName el' = localName el ∧
    attributes el' = attributes el ∧
    classList el' = classList el ∧
    parentNode el' = parentNode el ∧
    (¬ Animated landingPage 2 → el' = el).
Proof.
  intros el.
  split; [exact landingPage_canvas | ]. split; [reflexivity | ].
  exact (script_frame parseName (freshWorld landingPage) 1 2 el
           landingPage_canvas eq_refl).
Defined.

Lemma listeners_only_on_links_witness :
  CanvasPresent landingPage 1 ∧
  ∃ w, script parseName (freshWorld landingPage) = (inr tt, w) ∧
    (FragmentLink landingPage 2 →
       listenersOf 2 w
       = listenersOf 2 (freshWorld landingPage) ++ [smoothScroll parseName]) ∧
    (¬ FragmentLink landingPage 2 →
       listenersOf 2 w = listenersOf 2 (freshWorld landingPage)).
Proof.
  split; [exact landingPage_canvas | ].
  exact (listeners_only_on_links parseName (freshWorld landingPage) 1 2
           landingPage_canvas).
Defined.

Lemma repeated_clicks_witness :
  let w := snd (script parseName (freshWorld landingPage)) in
  listenersOf 2 w = [smoothScroll parseName] ∧
  Resolves parseName 2 (page w) 4 ∧
  scrolls (page (clicks 3 2 w))
    = scrolls (page w) ++ replicate 3 (4, {| behavior := "smooth" |}) ∧
  document (page (clicks 3 2 w)) = document (page w) ∧
  listeners (clicks 3 2 w) = listeners w.
Proof.
  intros w.
  assert (listenersOf 2 w = [smoothScroll parseName]) as Hl by reflexivity.
  assert (Resolves parseName 2 (page w) 4) as Hres by (vm_compute; reflexivity).
  split; [exact Hl | ]. split; [exact Hres | ].
  exact (repeated_clicks parseName 3 2 w 4 Hl Hres).
Defined.

Lemma failed_click_error_witness :
  let p := page (freshWorld landingPage) in
  let a := node "a" [("href", "#missing")] [] (Some 0) in
  document p !! 3 = Some a ∧
  getAttribute "href" a = Some "#missing" ∧
  Unresolved parseName 3 p ∧
  smoothScroll parseName 3 (clickEvent, p)
  = (inl match parseName "#missing" with
         | Some _ => TypeError
         | None => SyntaxError
         end,
     (preventDefault clickEvent, p)).
Proof.
  intros p a.
  assert (Unresolved parseName 3 p) as Hun by (by apply missing_link_unresolved).
  split; [reflexivity | ]. split; [reflexivity | ]. split; [exact Hun | ].
  exact (failed_click_error parseName 3 a "#missing" clickEvent p
           eq_refl eq_refl Hun).
Defined.

Lemma script_needs_canvas_witness :
  (∀ c, ¬ CanvasPresent divChartPage c) ∧
  getElementById "heroChart" divChartPage = Some 1 ∧
  script parseName (freshWorld divChartPage)
    = (inl TypeError, freshWorld divChartPage).
Proof.
  assert (∀ c, ¬ CanvasPresent divChartPage c) as Hno.
  { intros c [Hid (el & Hel & Hname)].
    vm_compute in Hid. injection Hid as <-.
    vm_compute in Hel. injection Hel as <-. discriminate Hname. }
  split; [exact Hno | ]. split; [reflexivity | ].
  exact (script_needs_canvas parseName (freshWorld divChartPage) Hno).
Defined.

End FurtherInstances.
